(** * SINMAM front end: the polling / refresh / classification core of [App.tsx]

    A shallow embedding of the [App] component of [src/App.tsx]:
    - the data model (the two TypeScript interfaces and the JSON values that
      [response.json()] hands to the state setters),
    - the risk classification helpers and the inline threshold expressions of
      the JSX,
    - the three asynchronous functions [fetchHeartRateStats],
      [fetchHeartRateReadings] and [fetchData], written in a small
      state-and-exception monad,
    - the component's life cycle (mount, interval tick, manual retry, unmount).

    Numbers are integers ([Z]): the interfaces declare BPM values as
    [number] and the service contract sends integers. *)

From Stdlib Require Import ZArith String List Bool Lia.
Import ListNotations.

Open Scope string_scope.
Open Scope Z_scope.

(* ================================================================= *)
(** ** Data model *)

(** What [JSON.parse] can return (numbers restricted to integers). *)
#[warnings="-register-all"]
Inductive json : Type :=
  | JNull
  | JBool (b : bool)
  | JNum (n : Z)
  | JStr (s : string)
  | JArr (items : list json)
  | JObj (fields : list (string * json)).

(** [interface HeartRateReading] *)
Record HeartRateReading : Type := {
  id : Z;
  hour : string;
  pulse : Z;
  isRisky : bool;
  timestamp : string
}.

(** [interface HeartRateStats] *)
Record HeartRateStats : Type := {
  last5Minutes : Z;
  last15Minutes : Z;
  last30Minutes : Z;
  current : Z;
  lastUpdated : string
}.

(** The object a record of each interface is at run time. *)
Definition stats_to_json (s : HeartRateStats) : json :=
  JObj [ ("last5Minutes", JNum (last5Minutes s));
         ("last15Minutes", JNum (last15Minutes s));
         ("last30Minutes", JNum (last30Minutes s));
         ("current", JNum (current s));
         ("lastUpdated", JStr (lastUpdated s)) ].

Definition reading_to_json (r : HeartRateReading) : json :=
  JObj [ ("id", JNum (id r));
         ("hour", JStr (hour r));
         ("pulse", JNum (pulse r));
         ("isRisky", JBool (isRisky r));
         ("timestamp", JStr (timestamp r)) ].

Definition readings_to_json (rs : list HeartRateReading) : json :=
  JArr (map reading_to_json rs).

(** Property access [o.k] on a parsed object. *)
Fixpoint get_field (k : string) (fields : list (string * json)) : option json :=
  match fields with
  | [] => None
  | (k', v) :: rest => if (k' =? k)%string then Some v else get_field k rest
  end.

Definition as_num (o : option json) : option Z :=
  match o with Some (JNum n) => Some n | _ => None end.

Definition as_str (o : option json) : option string :=
  match o with Some (JStr s) => Some s | _ => None end.

Definition as_bool (o : option json) : option bool :=
  match o with Some (JBool b) => Some b | _ => None end.

(** A JSON value read as a [HeartRateStats]: an object that has the five
    fields of the interface at their declared types (the shape of the stats
    body in the service contract).  [App.tsx] never runs such a check, the
    interfaces being erased by the TypeScript compiler: the function only
    serves to state which bodies have the expected shape, and to read a
    slice back at its declared type. *)
Definition stats_of_json (d : json) : option HeartRateStats :=
  match d with
  | JObj fs =>
      match as_num (get_field "last5Minutes" fs),
            as_num (get_field "last15Minutes" fs),
            as_num (get_field "last30Minutes" fs),
            as_num (get_field "current" fs),
            as_str (get_field "lastUpdated" fs) with
      | Some a, Some b, Some c, Some d', Some u =>
          Some {| last5Minutes := a; last15Minutes := b; last30Minutes := c;
                  current := d'; lastUpdated := u |}
      | _, _, _, _, _ => None
      end
  | _ => None
  end.

(** A JSON value read as a [HeartRateReading], in the same way. *)
Definition reading_of_json (d : json) : option HeartRateReading :=
  match d with
  | JObj fs =>
      match as_num (get_field "id" fs),
            as_str (get_field "hour" fs),
            as_num (get_field "pulse" fs),
            as_bool (get_field "isRisky" fs),
            as_str (get_field "timestamp" fs) with
      | Some i, Some h, Some p, Some r, Some t =>
          Some {| id := i; hour := h; pulse := p; isRisky := r; timestamp := t |}
      | _, _, _, _, _ => None
      end
  | _ => None
  end.

Fixpoint all_readings (items : list json) : option (list HeartRateReading) :=
  match items with
  | [] => Some []
  | d :: rest =>
      match reading_of_json d, all_readings rest with
      | Some r, Some rs => Some (r :: rs)
      | _, _ => None
      end
  end.

(** A JSON value read as a [HeartRateReading[]]: an array of readings. *)
Definition readings_of_json (d : json) : option (list HeartRateReading) :=
  match d with
  | JArr items => all_readings items
  | _ => None
  end.

(* ================================================================= *)
(** ** Risk classification helpers (App.tsx, lines 93-118) *)

Definition getRiskLevel (pulse : Z) : string :=
  if pulse >? 100 then "high"
  else if pulse <? 60 then "low"
  else "normal".

(** The [switch] on the level string. *)
Definition getRiskColor (pulse : Z) : string :=
  let risk := getRiskLevel pulse in
  if (risk =? "high")%string then "text-red-600"
  else if (risk =? "low")%string then "text-blue-600"
  else "text-green-600".

Definition getRiskBadgeColor (isRisky : bool) : string :=
  if isRisky
  then "bg-red-100 text-red-800 border-red-200"
  else "bg-green-100 text-green-800 border-green-200".

Definition getStatCardColor (value : Z) : string :=
  if value >? 100 then "border-red-200 bg-red-50"
  else if value <? 60 then "border-blue-200 bg-blue-50"
  else "border-green-200 bg-green-50".

(* ================================================================= *)
(** ** The dynamic parts of the JSX (App.tsx, lines 120-345) *)

(** The conditional class of the badge, written twice in the JSX: for
    [stats.current] (lines 188-192) and for [reading.pulse] (lines 312-316). *)
Definition heroBadgeClass (v : Z) : string :=
  if v >? 100 then "bg-red-100 text-red-800"
  else if v <? 60 then "bg-blue-100 text-blue-800"
  else "bg-green-100 text-green-800".

Definition heroBadgeLabel (v : Z) : string :=
  if v >? 100 then "Elevado" else if v <? 60 then "Bajo" else "Normal".

Definition rowEstadoClass (v : Z) : string :=
  if v >? 100 then "bg-red-100 text-red-800"
  else if v <? 60 then "bg-blue-100 text-blue-800"
  else "bg-green-100 text-green-800".

Definition rowEstadoLabel (v : Z) : string :=
  if v >? 100 then "Elevado" else if v <? 60 then "Bajo" else "Normal".

(** The hero section. *)
Record HeroView : Type := {
  hero_value : Z;
  hero_badge_class : string;
  hero_badge_label : string;
  hero_last_updated : string
}.

Definition renderHero (s : HeartRateStats) : HeroView :=
  {| hero_value := current s;
     hero_badge_class := heroBadgeClass (current s);
     hero_badge_label := heroBadgeLabel (current s);
     hero_last_updated := lastUpdated s |}.

(** One of the three time-window cards. *)
Record CardView : Type := {
  card_class : string;
  card_value : Z
}.

Definition renderCard (value : Z) : CardView :=
  {| card_class := getStatCardColor value; card_value := value |}.

(** One row of the readings table ([readings.map], lines 295-329). *)
Record RowView : Type := {
  row_key : Z;
  row_hour : string;
  row_pulse_class : string;
  row_pulse_value : Z;
  row_estado_class : string;
  row_estado_label : string;
  row_alert_icon : bool;
  row_badge_class : string;
  row_badge_text : string
}.

Definition renderRow (reading : HeartRateReading) : RowView :=
  {| row_key := id reading;
     row_hour := hour reading;
     row_pulse_class := getRiskColor (pulse reading);
     row_pulse_value := pulse reading;
     row_estado_class := rowEstadoClass (pulse reading);
     row_estado_label := rowEstadoLabel (pulse reading);
     row_alert_icon := isRisky reading;
     row_badge_class := getRiskBadgeColor (isRisky reading);
     row_badge_text := if isRisky reading then "Sí" else "No" |}.

(* ================================================================= *)
(** ** Component state (App.tsx, lines 24-38) *)

(** The four [useState] slices.  [setStats(data)] and [setReadings(data)]
    receive whatever [response.json()] produced, so the two data slices hold
    JSON values; [error] is [string | null]. *)
Record State : Type := {
  stats : json;
  readings : json;
  loading : bool;
  error : option string
}.

(** The [useState] initialisers.  [now] is the result of
    [new Date().toLocaleTimeString('es-ES', ...)] at construction time. *)
Definition initialState (now : string) : State :=
  {| stats := stats_to_json
                {| last5Minutes := 0; last15Minutes := 0; last30Minutes := 0;
                   current := 0; lastUpdated := now |};
     readings := JArr [];
     loading := true;
     error := None |}.

(** A value that can be thrown, or reject a promise: an [Error] object with
    its [message], or any other value. *)
Inductive thrown : Type :=
  | ThrownError (message : string)
  | ThrownValue (v : json).

(** How a promise settles. *)
Inductive settled (A : Type) : Type :=
  | Fulfilled (a : A)
  | Rejected (e : thrown).
Arguments Fulfilled {A} a.
Arguments Rejected {A} e.

(** The part of a [Response] the component looks at: its [ok] flag and how
    the promise of [response.json()] settles. *)
Record Response : Type := {
  ok : bool;
  response_json : settled json
}.

(** What the asynchronous functions act on: the state slices and the
    console. *)
Record World : Type := {
  state : State;
  console : list (string * thrown)
}.

(* ================================================================= *)
(** ** A state-and-exception monad for the [async] functions *)

Definition M (A : Type) : Type := World -> settled A * World.

Definition ret {A} (a : A) : M A := fun w => (Fulfilled a, w).

Definition bind {A B} (m : M A) (f : A -> M B) : M B :=
  fun w =>
    match m w with
    | (Fulfilled a, w') => f a w'
    | (Rejected e, w') => (Rejected e, w')
    end.

Definition throw {A} (e : thrown) : M A := fun w => (Rejected e, w).

(** [await p] for a promise that settles as [p]. *)
Definition await {A} (p : settled A) : M A := fun w => (p, w).

(** [try { m } catch (err) { h err }] *)
Definition try_catch {A} (m : M A) (h : thrown -> M A) : M A :=
  fun w =>
    match m w with
    | (Fulfilled a, w') => (Fulfilled a, w')
    | (Rejected e, w') => h e w'
    end.

(** [try { m } finally { f }] *)
Definition try_finally {A} (m : M A) (f : M unit) : M A :=
  fun w =>
    match m w with
    | (r, w') =>
        match f w' with
        | (Fulfilled _, w'') => (r, w'')
        | (Rejected e, w'') => (Rejected e, w'')
        end
    end.

Declare Scope monad_scope.
Delimit Scope monad_scope with monad.
Notation "x <- m1 ; m2" := (bind m1 (fun x => m2))
  (at level 61, m1 at next level, right associativity) : monad_scope.
Notation "m1 ;; m2" := (bind m1 (fun _ => m2))
  (at level 61, right associativity) : monad_scope.
Open Scope monad_scope.

Definition modify (f : State -> State) : M unit :=
  fun w => (Fulfilled tt, {| state := f (state w); console := console w |}).

(** The four state setters: each replaces its slice by its argument. *)
Definition setStats (data : json) : M unit :=
  modify (fun s => {| stats := data; readings := readings s;
                      loading := loading s; error := error s |}).

Definition setReadings (data : json) : M unit :=
  modify (fun s => {| stats := stats s; readings := data;
                      loading := loading s; error := error s |}).

Definition setLoading (b : bool) : M unit :=
  modify (fun s => {| stats := stats s; readings := readings s;
                      loading := b; error := error s |}).

Definition setError (e : option string) : M unit :=
  modify (fun s => {| stats := stats s; readings := readings s;
                      loading := loading s; error := e |}).

Definition console_error (label : string) (err : thrown) : M unit :=
  fun w => (Fulfilled tt,
            {| state := state w; console := console w ++ [(label, err)] |}).

(** [err instanceof Error ? err.message : 'Error desconocido'] *)
Definition error_message (err : thrown) : string :=
  match err with
  | ThrownError message => message
  | ThrownValue _ => "Error desconocido"
  end.

(* ================================================================= *)
(** ** API functions (App.tsx, lines 41-77) *)

(** [fetched] is how the promise of [fetch(`${API_BASE_URL}/api/heart-rate/stats`)]
    settles. *)
Definition fetchHeartRateStats (fetched : settled Response) : M unit :=
  try_catch
    (response <- await fetched;
     (if negb (ok response)
      then throw (ThrownError "Error al obtener estadísticas")
      else ret tt) ;;
     data <- await (response_json response);
     setStats data)
    (fun err => setError (Some (error_message err))).

Definition fetchHeartRateReadings (fetched : settled Response) : M unit :=
  try_catch
    (response <- await fetched;
     (if negb (ok response)
      then throw (ThrownError "Error al obtener lecturas")
      else ret tt) ;;
     data <- await (response_json response);
     setReadings data)
    (fun err => setError (Some (error_message err))).

(** Which of the two concurrent calls reaches its state setter first.  Each
    call touches the state once, at its end, so the order of these two
    moments is all of the interleaving that the state can see. *)
Inductive order : Type := StatsFirst | ReadingsFirst.

(** [Promise.all([a, b])] with [a] finishing before [b]: both run, and the
    result is the first rejection if there is one.  (After a rejection of
    [a] the awaiting function would resume before [b] has finished; neither
    API function ever rejects, see [promise_all_fulfilled], so that
    interleaving does not arise.) *)
Definition both (a b : M unit) : M unit :=
  fun w =>
    match a w with
    | (ra, wa) =>
        match b wa with
        | (rb, wb) =>
            (match ra with
             | Rejected e => Rejected e
             | Fulfilled _ => rb
             end, wb)
        end
    end.

Definition promise_all (ord : order) (s r : M unit) : M unit :=
  match ord with
  | StatsFirst => both s r
  | ReadingsFirst => both r s
  end.

(** [fetchData] up to its [await]: the synchronous prefix. *)
Definition fetchData_begin : M unit :=
  setLoading true ;;
  setError None.

(** [fetchData] from its [await] on, once both calls have settled. *)
Definition fetchData_resume
    (fetchedStats fetchedReadings : settled Response) (ord : order) : M unit :=
  try_finally
    (try_catch
       (promise_all ord (fetchHeartRateStats fetchedStats)
                        (fetchHeartRateReadings fetchedReadings))
       (fun err => console_error "Error al cargar datos:" err))
    (setLoading false).

Definition fetchData
    (fetchedStats fetchedReadings : settled Response) (ord : order) : M unit :=
  fetchData_begin ;;
  fetchData_resume fetchedStats fetchedReadings ord.

(** The world after running a computation. *)
Definition exec {A} (m : M A) (w : World) : World := snd (m w).

(* ================================================================= *)
(** ** When rendering throws (App.tsx, lines 175-342) *)

(** The state setters take any parsed body, so the JSX can meet values
    that are not of the declared interfaces.  What follows tells for which
    of them evaluating the JSX throws. *)

(** [v.k] for a property [k] other than [length] and [map], on a value
    [v] that is not [null]: the named field of an object, [undefined]
    ([None]) on anything else. *)
Definition get_prop (k : string) (v : json) : option json :=
  match v with
  | JObj fs => get_field k fs
  | _ => None
  end.

(** [{v}] as a child of an element: a plain object is refused ("Objects are
    not valid as a React child"); an array is rendered item by item;
    strings and numbers are text; [null], booleans and [undefined] render
    nothing. *)
Fixpoint valid_child (v : json) : bool :=
  match v with
  | JObj _ => false
  | JArr items => forallb valid_child items
  | _ => true
  end.

Definition valid_child_opt (o : option json) : bool :=
  match o with
  | Some v => valid_child v
  | None => true
  end.

(** An object has an own property [k]. *)
Definition has_key (k : string) (fs : list (string * json)) : bool :=
  match get_field k fs with Some _ => true | None => false end.

(** Converting [v] to a string throws: an object whose own [toString] is a
    parsed value, hence not callable, cannot be converted to a primitive;
    an array joins the strings of its items. *)
Fixpoint to_string_throws (v : json) : bool :=
  match v with
  | JObj fs => has_key "toString" fs
  | JArr items => existsb to_string_throws items
  | _ => false
  end.

(** [key={reading.id}]: a key that is not [undefined] is converted to a
    string. *)
Definition key_throws (o : option json) : bool :=
  match o with
  | Some v => to_string_throws v
  | None => false
  end.

(** The hero section and the three cards read five properties of [stats]
    and render each as a child. *)
Definition stats_throws (st : json) : bool :=
  match st with
  | JNull => true
  | _ =>
      negb (valid_child_opt (get_prop "current" st)
            && valid_child_opt (get_prop "lastUpdated" st)
            && valid_child_opt (get_prop "last5Minutes" st)
            && valid_child_opt (get_prop "last15Minutes" st)
            && valid_child_opt (get_prop "last30Minutes" st))
  end.

(** One row of [readings.map]: it reads properties of [reading], converts
    [reading.id] to the key and renders [reading.hour] and [reading.pulse]
    as children. *)
Definition row_throws (reading : json) : bool :=
  match reading with
  | JNull => true
  | _ =>
      key_throws (get_prop "id" reading)
      || negb (valid_child_opt (get_prop "hour" reading))
      || negb (valid_child_opt (get_prop "pulse" reading))
  end.

(** [readings.length === 0 ? (placeholder) : readings.map(...)]: reading
    [length] of [null] throws; a value that is not an array has no [map] to
    call, so it throws unless its [length] is 0 (the empty string, an object
    with a field [length] equal to 0). *)
Definition readings_throws (rd : json) : bool :=
  match rd with
  | JNull => true
  | JArr items => existsb row_throws items
  | JStr s => negb (s =? EmptyString)%string
  | JObj fs =>
      match get_field "length" fs with
      | Some (JNum n) => negb (n =? 0)
      | _ => true
      end
  | _ => true
  end.

(** Rendering the component in state [s] throws.  While [loading] is true
    the content is not evaluated ([{!loading && (...)}]); the header, the
    spinner and the error banner never throw. *)
Definition render_throws (s : State) : bool :=
  if loading s then false
  else stats_throws (stats s) || readings_throws (readings s).

(* ================================================================= *)
(** ** Life cycle of the component (App.tsx, lines 79-91) *)

(** [timer] tells whether the interval of [setInterval] is registered and
    not cleared, which is the case exactly while the component is mounted:
    the interval is registered by an effect at mount and cleared by that
    effect's cleanup when the component is unmounted.  [inflight] counts the
    cycles that have started and whose fetches have not settled yet.

    The state setters are the dispatchers of [useState]: a call on a mounted
    component replaces the slice and the component renders again; a call on
    an unmounted component is dropped.  A render that throws is not caught
    by anything in [App.tsx]: the component is then unmounted, and the
    cleanup clears the interval. *)
Record Component : Type := {
  world : World;
  timer : bool;
  inflight : nat
}.

Definition start_cycle (c : Component) : Component :=
  {| world := exec fetchData_begin (world c);
     timer := timer c;
     inflight := S (inflight c) |}.

(** Mounting runs both effects: [fetchData()] and [setInterval(..., 15000)]. *)
Definition mount (now : string) : Component :=
  let c := start_cycle {| world := {| state := initialState now; console := [] |};
                          timer := false; inflight := 0 |} in
  {| world := world c; timer := true; inflight := inflight c |}.

(** The interval fires: only a registered interval does. *)
Definition tick (c : Component) : Component :=
  if timer c then start_cycle c else c.

(** The button "Reintentar": [onClick={fetchData}]. *)
Definition retry (c : Component) : Component := start_cycle c.

(** The fetches of a cycle in flight settle and [fetchData] resumes.  On a
    mounted component its setter calls are applied, and the component stays
    mounted unless rendering the new state throws; on an unmounted
    component they are dropped. *)
Definition resolve (fetchedStats fetchedReadings : settled Response)
    (ord : order) (c : Component) : Component :=
  match inflight c with
  | O => c
  | S n =>
      if timer c
      then
        let w := exec (fetchData_resume fetchedStats fetchedReadings ord)
                      (world c) in
        {| world := w;
           timer := negb (render_throws (state w));
           inflight := n |}
      else {| world := world c; timer := false; inflight := n |}
  end.

(** The cleanup of the second effect: [clearInterval(interval)]. *)
Definition unmount (c : Component) : Component :=
  {| world := world c; timer := false; inflight := inflight c |}.

(* ================================================================= *)
(** ** What is on screen (App.tsx, lines 149-342) *)

Record ContentView : Type := {
  hero : HeroView;
  card5 : CardView;
  card15 : CardView;
  card30 : CardView;
  rows : list RowView
}.

Record AppView : Type := {
  loading_shown : bool;
  error_shown : option string;
  content_shown : option ContentView
}.

(** [{error && (...)}]: [null] and the empty string are falsy. *)
Definition error_banner (e : option string) : option string :=
  match e with
  | Some m => if (m =? EmptyString)%string then None else Some m
  | None => None
  end.

(** [{!loading && (...)}].  The view is given for data slices of the
    declared interfaces.  The result is [None] when a slice to be shown is
    not a value of its interface: then rendering either throws (see
    [render_throws]) or shows values that the view records, typed by the
    interfaces, cannot hold. *)
Definition render (s : State) : option AppView :=
  if loading s
  then Some {| loading_shown := true;
               error_shown := error_banner (error s);
               content_shown := None |}
  else
    match stats_of_json (stats s), readings_of_json (readings s) with
    | Some st, Some rs =>
        Some {| loading_shown := false;
                error_shown := error_banner (error s);
                content_shown :=
                  Some {| hero := renderHero st;
                          card5 := renderCard (last5Minutes st);
                          card15 := renderCard (last15Minutes st);
                          card30 := renderCard (last30Minutes st);
                          rows := map renderRow rs |} |}
    | _, _ => None
    end.

(* ================================================================= *)
(** ** Vocabulary of the specification *)

(** The three ways a call can fail (transport, protocol, malformed data),
    read off the settled promises. *)
Inductive outcome : Type :=
  | Success (data : json)
  | TransportError (e : thrown)
  | ProtocolError
  | ParseError (e : thrown).

Definition classify (fetched : settled Response) : outcome :=
  match fetched with
  | Rejected e => TransportError e
  | Fulfilled response =>
      if ok response
      then match response_json response with
           | Fulfilled data => Success data
           | Rejected e => ParseError e
           end
      else ProtocolError
  end.

Definition failed (o : outcome) : bool :=
  match o with Success _ => false | _ => true end.

(** The message a failed call reports; [own] is the text of the call's own
    [throw new Error(...)]. *)
Definition failure_message (own : string) (o : outcome) : option string :=
  match o with
  | Success _ => None
  | TransportError e => Some (error_message e)
  | ProtocolError => Some own
  | ParseError e => Some (error_message e)
  end.

(** The failure is an [Error] object whose [message] is the empty string. *)
Definition empty_message (o : outcome) : bool :=
  match o with
  | TransportError (ThrownError m) => (m =? EmptyString)%string
  | ParseError (ThrownError m) => (m =? EmptyString)%string
  | _ => false
  end.

(** The error left by a cycle: the message of the call that failed last. *)
Definition cycle_error (o_stats o_readings : outcome) (ord : order) : option string :=
  let ms := failure_message "Error al obtener estadísticas" o_stats in
  let mr := failure_message "Error al obtener lecturas" o_readings in
  match ord with
  | StatsFirst => match mr with Some m => Some m | None => ms end
  | ReadingsFirst => match ms with Some m => Some m | None => mr end
  end.

(** A response with status OK whose body parses to [data]. *)
Definition ok_response (data : json) : settled Response :=
  Fulfilled {| ok := true; response_json := Fulfilled data |}.

(** The body of a response does not parse into the shape [shape]: parsing
    fails, or it yields a value of another shape. *)
Definition unexpected_body {T} (shape : json -> option T) (response : Response)
  : bool :=
  match response_json response with
  | Fulfilled data => match shape data with Some _ => false | None => true end
  | Rejected _ => true
  end.

(** The category texts that go with each level of [getRiskLevel]. *)
Definition label_of_level (level : string) : string :=
  if (level =? "high")%string then "Elevado"
  else if (level =? "low")%string then "Bajo"
  else "Normal".

Definition badge_of_level (level : string) : string :=
  if (level =? "high")%string then "bg-red-100 text-red-800"
  else if (level =? "low")%string then "bg-blue-100 text-blue-800"
  else "bg-green-100 text-green-800".

Definition card_of_level (level : string) : string :=
  if (level =? "high")%string then "border-red-200 bg-red-50"
  else if (level =? "low")%string then "border-blue-200 bg-blue-50"
  else "border-green-200 bg-green-50".

Definition text_of_level (level : string) : string :=
  if (level =? "high")%string then "text-red-600"
  else if (level =? "low")%string then "text-blue-600"
  else "text-green-600".

(* ================================================================= *)
(** ** Sample data *)

Definition reading_150_risky : HeartRateReading :=
  {| id := 1; hour := "14:30"; pulse := 150; isRisky := true;
     timestamp := "2025-01-11T14:30:00Z" |}.

Definition reading_150_not_risky : HeartRateReading :=
  {| id := 2; hour := "14:15"; pulse := 150; isRisky := false;
     timestamp := "2025-01-11T14:15:00Z" |}.

Definition reading_55_risky : HeartRateReading :=
  {| id := 3; hour := "14:00"; pulse := 55; isRisky := true;
     timestamp := "2025-01-11T14:00:00Z" |}.

Definition sample_stats : HeartRateStats :=
  {| last5Minutes := 95; last15Minutes := 92; last30Minutes := 88;
     current := 98; lastUpdated := "14:30:25" |}.

Definition sample_readings : list HeartRateReading :=
  [reading_150_risky; reading_150_not_risky; reading_55_risky].

(** The component right after mounting at 12:00:00, its first cycle in
    flight. *)
Definition mounted : Component := mount "12:00:00".

(** A cycle has completed: the sample data are on screen. *)
Definition ready : World :=
  exec (fetchData (ok_response (stats_to_json sample_stats))
                  (ok_response (readings_to_json sample_readings)) StatsFirst)
       (world mounted).

(** [fetch] rejects with [new Error('')]. *)
Definition rejected_silently : settled Response :=
  Rejected (ThrownError EmptyString).

(** Status 500. *)
Definition server_error : settled Response :=
  Fulfilled {| ok := false; response_json := Fulfilled JNull |}.

(* ================================================================= *)
(** ** Service location (App.tsx, lines 22, 43 and 56) *)

(** [import.meta.env.VITE_API_BASE_URL || 'http://localhost:3001']: the
    variable is a string or is undefined, and [||] takes the default for
    both falsy values, [undefined] and the empty string. *)
Definition API_BASE_URL (env : option string) : string :=
  match env with
  | Some url =>
      if (url =? EmptyString)%string then "http://localhost:3001" else url
  | None => "http://localhost:3001"
  end.

(** [`${API_BASE_URL}/api/heart-rate/stats`] *)
Definition stats_url (env : option string) : string :=
  (API_BASE_URL env ++ "/api/heart-rate/stats")%string.

(** [`${API_BASE_URL}/api/heart-rate/readings`] *)
Definition readings_url (env : option string) : string :=
  (API_BASE_URL env ++ "/api/heart-rate/readings")%string.

(* ================================================================= *)
(** ** The body of the readings table (App.tsx, lines 286-330) *)

Inductive TableBody : Type :=
  | NoReadings
  | Rows (trs : list RowView).

(** [readings.length === 0 ? (placeholder row) : readings.map(...)] *)
Definition renderTableBody (readings : list HeartRateReading) : TableBody :=
  if (Z.of_nat (length readings) =? 0)
  then NoReadings
  else Rows (map renderRow readings).

(* ================================================================= *)
(** ** Histories *)

(** What can happen to a mounted component: the interval fires, the user
    clicks "Reintentar", the fetches of a cycle in flight settle, the
    component is unmounted. *)
Inductive event : Type :=
  | Tick
  | ClickRetry
  | Resolve (fetchedStats fetchedReadings : settled Response) (ord : order)
  | Unmount.

(** The button "Reintentar" is part of the error banner: it can be clicked
    only while the component is mounted and [error] is truthy. *)
Definition click_retry (c : Component) : Component :=
  if timer c
  then match error_banner (error (state (world c))) with
       | Some _ => retry c
       | None => c
       end
  else c.

Definition step (c : Component) (e : event) : Component :=
  match e with
  | Tick => tick c
  | ClickRetry => click_retry c
  | Resolve fetchedStats fetchedReadings ord =>
      resolve fetchedStats fetchedReadings ord c
  | Unmount => unmount c
  end.

Definition run (es : list event) (c : Component) : Component :=
  fold_left step es c.

Definition is_unmount (e : event) : bool :=
  match e with Unmount => true | _ => false end.

(** The bodies that the responses of a history carry for one slice. *)
Definition stats_success (e : event) : option json :=
  match e with
  | Resolve fetchedStats _ _ =>
      match classify fetchedStats with Success d => Some d | _ => None end
  | _ => None
  end.

Definition readings_success (e : event) : option json :=
  match e with
  | Resolve _ fetchedReadings _ =>
      match classify fetchedReadings with Success d => Some d | _ => None end
  | _ => None
  end.

(** A response that failed, or that succeeded with a body of shape
    [shape]. *)
Definition shaped_or_failed {T} (shape : json -> option T)
    (fetched : settled Response) : bool :=
  match classify fetched with
  | Success d => match shape d with Some _ => true | None => false end
  | _ => true
  end.

(** Every body that the event brings has its declared shape. *)
Definition well_shaped (e : event) : bool :=
  match e with
  | Resolve fetchedStats fetchedReadings _ =>
      shaped_or_failed stats_of_json fetchedStats
      && shaped_or_failed readings_of_json fetchedReadings
  | _ => true
  end.

(** The slices of a component have their declared shapes. *)
Definition shaped (c : Component) : Prop :=
  (exists s, stats_of_json (stats (state (world c))) = Some s) /\
  (exists l, readings_of_json (readings (state (world c))) = Some l).

(** Cycles that run one after the other, each to its end. *)
Definition cycle : Type := (settled Response * settled Response * order)%type.

Definition run_cycle (w : World) (c : cycle) : World :=
  match c with
  | (fetchedStats, fetchedReadings, ord) =>
      exec (fetchData fetchedStats fetchedReadings ord) w
  end.

Definition run_cycles (cs : list cycle) (w : World) : World :=
  fold_left run_cycle cs w.

(** The body of the last successful response of a list, or [previous] when
    none succeeded. *)
Definition last_success (fetched : list (settled Response)) (previous : json)
  : json :=
  fold_left (fun acc r => match classify r with Success d => d | _ => acc end)
            fetched previous.

(** The content that shows a snapshot [s] and readings [l]. *)
Definition content_of (s : HeartRateStats) (l : list HeartRateReading)
  : ContentView :=
  {| hero := renderHero s;
     card5 := renderCard (last5Minutes s);
     card15 := renderCard (last15Minutes s);
     card30 := renderCard (last30Minutes s);
     rows := map renderRow l |}.

(** The levels in increasing order of pulse. *)
Definition level_rank (level : string) : Z :=
  if (level =? "low")%string then 0
  else if (level =? "normal")%string then 1
  else 2.

(** The texts the code itself can put in [error]. *)
Definition own_error_texts : list string :=
  [ "Error al obtener estadísticas"; "Error al obtener lecturas";
    "Error desconocido" ].

(** The messages of the [Error] objects that reject a call. *)
Definition thrown_messages (fetched : settled Response) : list string :=
  match classify fetched with
  | TransportError (ThrownError m) => [m]
  | ParseError (ThrownError m) => [m]
  | _ => []
  end.

(* ================================================================= *)
(** * Properties *)

(** Case analysis on how a fetch settles: OK or not, body parsed or not,
    or no response at all. *)
Ltac settle r := destruct r as [[[] [?|?]]|?].

(** ** Classification *)

Lemma getRiskLevel_cases (p : Z) :
  (100 < p /\ getRiskLevel p = "high") \/
  (p < 60 /\ getRiskLevel p = "low") \/
  (60 <= p <= 100 /\ getRiskLevel p = "normal").
Proof.
  unfold getRiskLevel. rewrite Z.gtb_ltb.
  destruct (Z.ltb_spec 100 p) as [Hh | Hh].
  - left. split; [exact Hh | reflexivity].
  - destruct (Z.ltb_spec p 60) as [Hl | Hl].
    + right; left. split; [exact Hl | reflexivity].
    + right; right. split; [lia | reflexivity].
Qed.

(** C1: for every integer pulse [p], [getRiskLevel p] is 'high' exactly when
    [p > 100], 'low' exactly when [p < 60] and 'normal' exactly when
    [60 <= p <= 100]; at the boundaries 60 and 100 are 'normal', 101 is
    'high' and 59 is 'low'. *)
Theorem getRiskLevel_spec :
  (forall p : Z,
     (getRiskLevel p = "high" <-> p > 100) /\
     (getRiskLevel p = "low" <-> p < 60) /\
     (getRiskLevel p = "normal" <-> 60 <= p <= 100)) /\
  getRiskLevel 60 = "normal" /\
  getRiskLevel 100 = "normal" /\
  getRiskLevel 101 = "high" /\
  getRiskLevel 59 = "low".
Proof.
  split; [| repeat split].
  intro p.
  destruct (getRiskLevel_cases p) as [[Hp E] | [[Hp E] | [Hp E]]];
    rewrite E; repeat split; intros; try discriminate; try lia.
Qed.

(** The level strings are told apart by each of the four tables. *)
Lemma level_tables_injective (l1 l2 : string) :
  In l1 ["high"; "low"; "normal"] -> In l2 ["high"; "low"; "normal"] ->
  label_of_level l1 = label_of_level l2 \/
  badge_of_level l1 = badge_of_level l2 \/
  card_of_level l1 = card_of_level l2 \/
  text_of_level l1 = text_of_level l2 ->
  l1 = l2.
Proof.
  simpl. intros [<- | [<- | [<- | []]]] [<- | [<- | [<- | []]]];
    cbv; intros [H | [H | [H | H]]]; first [reflexivity | discriminate H].
Qed.

(** C9: for every integer [v] the threshold expressions written inline in
    the JSX (hero badge and table "Estado" cell), [getStatCardColor] and
    [getRiskColor] all select the branch of the category that
    [getRiskLevel v] returns. *)
Theorem inline_thresholds_agree_with_getRiskLevel (v : Z) :
  heroBadgeLabel v = label_of_level (getRiskLevel v) /\
  heroBadgeClass v = badge_of_level (getRiskLevel v) /\
  rowEstadoLabel v = label_of_level (getRiskLevel v) /\
  rowEstadoClass v = badge_of_level (getRiskLevel v) /\
  getStatCardColor v = card_of_level (getRiskLevel v) /\
  getRiskColor v = text_of_level (getRiskLevel v).
Proof.
  unfold heroBadgeLabel, heroBadgeClass, rowEstadoLabel, rowEstadoClass,
    getStatCardColor, getRiskColor, getRiskLevel.
  destruct (v >? 100); [| destruct (v <? 60)]; repeat split.
Qed.

(** C8: two readings with the same pulse get the same locally derived
    level, colour, badge class and category label whatever their [isRisky]
    flags are, and two readings with the same [isRisky] flag get the same
    "risky" badge (class, text and icon) whatever their pulses are. *)
Theorem classification_independent_of_isRisky (r1 r2 : HeartRateReading) :
  (pulse r1 = pulse r2 ->
     getRiskLevel (pulse r1) = getRiskLevel (pulse r2) /\
     row_pulse_class (renderRow r1) = row_pulse_class (renderRow r2) /\
     row_estado_class (renderRow r1) = row_estado_class (renderRow r2) /\
     row_estado_label (renderRow r1) = row_estado_label (renderRow r2)) /\
  (isRisky r1 = isRisky r2 ->
     row_badge_class (renderRow r1) = row_badge_class (renderRow r2) /\
     row_badge_text (renderRow r1) = row_badge_text (renderRow r2) /\
     row_alert_icon (renderRow r1) = row_alert_icon (renderRow r2)).
Proof.
  split; intro H; simpl; rewrite H; repeat split.
Qed.

Lemma classification_independent_of_isRisky_witness :
  (isRisky reading_150_risky <> isRisky reading_150_not_risky /\
   row_estado_label (renderRow reading_150_risky) = "Elevado" /\
   row_estado_label (renderRow reading_150_risky)
     = row_estado_label (renderRow reading_150_not_risky)) /\
  (pulse reading_150_risky <> pulse reading_55_risky /\
   row_badge_text (renderRow reading_150_risky)
     = row_badge_text (renderRow reading_55_risky)).
Proof.
  split.
  - split; [discriminate |].
    split; [reflexivity |].
    apply (proj1 (classification_independent_of_isRisky
                    reading_150_risky reading_150_not_risky)).
    reflexivity.
  - split; [discriminate |].
    apply (proj2 (classification_independent_of_isRisky
                    reading_150_risky reading_55_risky)).
    reflexivity.
Defined.

(** ** The two API functions *)

(** What [fetchHeartRateStats] does, by outcome: it never rejects, commits
    the parsed body on success and otherwise only sets the error. *)
Lemma fetchHeartRateStats_run (fetched : settled Response) (w : World) :
  fetchHeartRateStats fetched w =
  (Fulfilled tt,
   {| state :=
        match classify fetched with
        | Success data =>
            {| stats := data; readings := readings (state w);
               loading := loading (state w); error := error (state w) |}
        | o =>
            {| stats := stats (state w); readings := readings (state w);
               loading := loading (state w);
               error := failure_message "Error al obtener estadísticas" o |}
        end;
      console := console w |}).
Proof. settle fetched; reflexivity. Qed.

Lemma fetchHeartRateReadings_run (fetched : settled Response) (w : World) :
  fetchHeartRateReadings fetched w =
  (Fulfilled tt,
   {| state :=
        match classify fetched with
        | Success data =>
            {| stats := stats (state w); readings := data;
               loading := loading (state w); error := error (state w) |}
        | o =>
            {| stats := stats (state w); readings := readings (state w);
               loading := loading (state w);
               error := failure_message "Error al obtener lecturas" o |}
        end;
      console := console w |}).
Proof. settle fetched; reflexivity. Qed.

(** Neither call rejects, so the early rejection of [Promise.all] and the
    [catch] of [fetchData] are never reached. *)
Lemma promise_all_fulfilled (rs rr : settled Response) (ord : order) (w : World) :
  fst (promise_all ord (fetchHeartRateStats rs) (fetchHeartRateReadings rr) w)
  = Fulfilled tt.
Proof.
  destruct ord; unfold promise_all, both;
    rewrite ?fetchHeartRateStats_run, ?fetchHeartRateReadings_run;
    cbv beta iota;
    rewrite ?fetchHeartRateStats_run, ?fetchHeartRateReadings_run;
    reflexivity.
Qed.

(** The state a whole cycle leaves, by outcome of the two calls. *)
Lemma fetchData_run (rs rr : settled Response) (ord : order) (w : World) :
  fetchData rs rr ord w =
  (Fulfilled tt,
   {| state :=
        {| stats := match classify rs with
                    | Success data => data
                    | _ => stats (state w)
                    end;
           readings := match classify rr with
                       | Success data => data
                       | _ => readings (state w)
                       end;
           loading := false;
           error := cycle_error (classify rs) (classify rr) ord |};
      console := console w |}).
Proof. settle rs; settle rr; destruct ord; reflexivity. Qed.

Lemma fetchData_resume_run (rs rr : settled Response) (ord : order) (w : World) :
  fetchData_resume rs rr ord w =
  (Fulfilled tt,
   {| state :=
        {| stats := match classify rs with
                    | Success data => data
                    | _ => stats (state w)
                    end;
           readings := match classify rr with
                       | Success data => data
                       | _ => readings (state w)
                       end;
           loading := false;
           error := match cycle_error (classify rs) (classify rr) ord with
                    | Some m => Some m
                    | None => error (state w)
                    end |};
      console := console w |}).
Proof. settle rs; settle rr; destruct ord; reflexivity. Qed.

(** ** Shapes *)

Lemma stats_of_json_to_json (s : HeartRateStats) :
  stats_of_json (stats_to_json s) = Some s.
Proof. destruct s; reflexivity. Qed.

Lemma reading_of_json_to_json (r : HeartRateReading) :
  reading_of_json (reading_to_json r) = Some r.
Proof. destruct r; reflexivity. Qed.

Lemma readings_of_json_to_json (l : list HeartRateReading) :
  readings_of_json (readings_to_json l) = Some l.
Proof.
  unfold readings_of_json, readings_to_json.
  induction l as [| r l IH]; [reflexivity |].
  cbn [map all_readings]. rewrite reading_of_json_to_json, IH. reflexivity.
Qed.

(** ** One refresh cycle *)

(** C2: when both fetches succeed, the cycle commits exactly the parsed
    stats body and exactly the parsed readings array, whatever the previous
    slices were and whichever call finished first; read through the
    declared interfaces, the snapshot is the record received and the
    readings (and the table rows) are the ones received, in the order
    received. *)
Theorem successful_cycle_replaces_both_slices :
  (forall (w : World) (ds dr : json) (ord : order),
     fetchData (ok_response ds) (ok_response dr) ord w =
     (Fulfilled tt,
      {| state := {| stats := ds; readings := dr;
                     loading := false; error := None |};
         console := console w |})) /\
  (forall (w : World) (s : HeartRateStats) (l : list HeartRateReading)
          (ord : order),
     let st := state (exec (fetchData (ok_response (stats_to_json s))
                                      (ok_response (readings_to_json l)) ord) w) in
     stats_of_json (stats st) = Some s /\
     readings_of_json (readings st) = Some l /\
     option_map (fun v => option_map rows (content_shown v)) (render st)
       = Some (Some (map renderRow l))).
Proof.
  split.
  - intros w ds dr ord. destruct ord; reflexivity.
  - intros w s l ord st.
    assert (E : st = {| stats := stats_to_json s; readings := readings_to_json l;
                        loading := false; error := None |})
      by (subst st; destruct ord; reflexivity).
    rewrite E. unfold render.
    cbn [stats readings loading error].
    rewrite stats_of_json_to_json, readings_of_json_to_json.
    repeat split.
Qed.

(** The error message can be empty: a [fetch] rejected with an [Error] whose
    message is the empty string leaves [error] set to the empty string, for
    which no banner is rendered. *)
Lemma empty_message_cycle :
  let st := state (exec (fetchData rejected_silently
                           (ok_response (readings_to_json sample_readings))
                           StatsFirst) ready) in
  error st = Some EmptyString /\
  option_map error_shown (render st) = Some None.
Proof. split; reflexivity. Qed.

(** C3, as stated, fails: a failed fetch does not always leave a non-empty
    message. *)
Lemma error_message_may_be_empty :
  ~ (forall (w : World) (rs rr : settled Response) (ord : order),
       let st := state (exec (fetchData rs rr ord) w) in
       (failed (classify rs) = true -> stats st = stats (state w)) /\
       (failed (classify rr) = true -> readings st = readings (state w)) /\
       (failed (classify rs) = true \/ failed (classify rr) = true ->
        exists m, error st = Some m /\ m <> EmptyString)).
Proof.
  intro H.
  destruct (H ready rejected_silently
              (ok_response (readings_to_json sample_readings)) StatsFirst)
    as (_ & _ & Hm).
  destruct Hm as (m & Hm & Hne); [left; reflexivity |].
  apply Hne. cbv in Hm. injection Hm as <-. reflexivity.
Qed.

(** C3 (amended): in every cycle each slice is replaced exactly when its own
    fetch succeeded and is otherwise the previous value; when at least one
    fetch fails the error is set to the message of the call that failed
    last, and that message is non-empty unless a failure was an [Error]
    thrown with an empty message. *)
Theorem failed_fetch_keeps_slice_and_sets_error
    (w : World) (rs rr : settled Response) (ord : order) :
  let st := state (exec (fetchData rs rr ord) w) in
  (failed (classify rs) = true -> stats st = stats (state w)) /\
  (failed (classify rr) = true -> readings st = readings (state w)) /\
  (forall d, classify rs = Success d -> stats st = d) /\
  (forall d, classify rr = Success d -> readings st = d) /\
  error st = cycle_error (classify rs) (classify rr) ord /\
  (failed (classify rs) = true \/ failed (classify rr) = true ->
   exists m, error st = Some m /\
             (empty_message (classify rs) = false ->
              empty_message (classify rr) = false -> m <> EmptyString)).
Proof.
  intro st. subst st. unfold exec. rewrite fetchData_run.
  cbn [snd state stats readings error].
  repeat split.
  - destruct (classify rs); [discriminate | reflexivity ..].
  - destruct (classify rr); [discriminate | reflexivity ..].
  - intros d ->. reflexivity.
  - intros d ->. reflexivity.
  - intros Hf.
    assert (Hmsg : forall own o, own <> EmptyString -> failed o = true ->
              exists m, failure_message own o = Some m /\
                        (empty_message o = false -> m <> EmptyString)).
    { intros own [d | [m | v] | | [m | v]] Hown Ho; try discriminate Ho;
        cbn; eexists; (split; [reflexivity |]); intros He;
        try exact Hown; try discriminate.
      - intros ->. discriminate He.
      - intros ->. discriminate He. }
    assert (Hs : "Error al obtener estadísticas" <> EmptyString) by discriminate.
    assert (Hr : "Error al obtener lecturas" <> EmptyString) by discriminate.
    unfold cycle_error.
    destruct (failed (classify rs)) eqn:Fs, (failed (classify rr)) eqn:Fr.
    + destruct (Hmsg _ _ Hs Fs) as (ms & Es & Ns).
      destruct (Hmsg _ _ Hr Fr) as (mr & Er & Nr).
      rewrite Es, Er. destruct ord; eexists; split; try reflexivity; auto.
    + destruct (Hmsg _ _ Hs Fs) as (ms & Es & Ns). rewrite Es.
      destruct (classify rr); try discriminate Fr. cbn.
      destruct ord; eexists; split; try reflexivity; auto.
    + destruct (Hmsg _ _ Hr Fr) as (mr & Er & Nr). rewrite Er.
      destruct (classify rs); try discriminate Fs. cbn.
      destruct ord; eexists; split; try reflexivity; auto.
    + destruct Hf; discriminate.
Qed.

Lemma failed_fetch_keeps_slice_and_sets_error_witness :
  let st := state (exec (fetchData server_error
                           (ok_response (readings_to_json sample_readings))
                           ReadingsFirst) (world mounted)) in
  stats st = stats (state (world mounted)) /\
  readings st = readings_to_json sample_readings /\
  exists m, error st = Some m /\ m <> EmptyString.
Proof.
  intro st.
  pose proof (failed_fetch_keeps_slice_and_sets_error (world mounted)
                server_error
                (ok_response (readings_to_json sample_readings))
                ReadingsFirst) as (Hs & _ & _ & Hr & _ & Hm).
  split; [apply Hs; reflexivity |].
  split; [apply Hr; reflexivity |].
  destruct Hm as (m & Em & Nm); [left; reflexivity |].
  exists m. split; [exact Em | apply Nm; reflexivity].
Defined.

(** ** Bodies of an unexpected shape *)

(** C5, as stated, fails: a body that is valid JSON of another shape (here
    [null], with status OK) is committed and no error is signalled. *)
Lemma unexpected_shape_is_committed :
  ~ ((forall (w : World) (response : Response),
        unexpected_body stats_of_json response = true ->
        let st := state (exec (fetchHeartRateStats (Fulfilled response)) w) in
        stats st = stats (state w) /\ exists m, error st = Some m) /\
     (forall (w : World) (response : Response),
        unexpected_body readings_of_json response = true ->
        let st := state (exec (fetchHeartRateReadings (Fulfilled response)) w) in
        readings st = readings (state w) /\ exists m, error st = Some m)).
Proof.
  intros [H _].
  destruct (H ready {| ok := true; response_json := Fulfilled JNull |}
              eq_refl) as [Hs _].
  discriminate Hs.
Qed.

(** C5 (amended): for a response with status OK, a body that fails to parse
    ([response.json()] rejects) is a failure of that call: the slice is not
    updated and the error is set to the parse error's message; a body that
    parses is committed as it is, whatever its shape, and the call signals
    no error. *)
Theorem unparsable_body_is_a_failure :
  (forall (w : World) (e : thrown),
     let bad := Fulfilled {| ok := true; response_json := Rejected e |} in
     exec (fetchHeartRateStats bad) w =
       {| state := {| stats := stats (state w); readings := readings (state w);
                      loading := loading (state w);
                      error := Some (error_message e) |};
          console := console w |} /\
     exec (fetchHeartRateReadings bad) w =
       {| state := {| stats := stats (state w); readings := readings (state w);
                      loading := loading (state w);
                      error := Some (error_message e) |};
          console := console w |}) /\
  (forall (w : World) (data : json),
     exec (fetchHeartRateStats (ok_response data)) w =
       {| state := {| stats := data; readings := readings (state w);
                      loading := loading (state w); error := error (state w) |};
          console := console w |} /\
     exec (fetchHeartRateReadings (ok_response data)) w =
       {| state := {| stats := stats (state w); readings := data;
                      loading := loading (state w); error := error (state w) |};
          console := console w |}).
Proof. split; intros; split; reflexivity. Qed.

(** ** Faults and the loading flag *)

Ltac shape_fields H :=
  repeat match type of H with
         | context [get_field ?k ?fs] =>
             destruct (get_field k fs) as [[| ? | ? | ? | ? | ?] |];
             cbn in H; try discriminate H
         end.

(** Slices of the declared interfaces render without throwing. *)
Lemma stats_shape_renders (d : json) (s : HeartRateStats) :
  stats_of_json d = Some s -> stats_throws d = false.
Proof.
  intros H. destruct d as [| b | n | t | items | fs]; try discriminate H.
  unfold stats_of_json in H. unfold stats_throws, get_prop.
  shape_fields H. reflexivity.
Qed.

Lemma reading_shape_renders (d : json) (r : HeartRateReading) :
  reading_of_json d = Some r -> row_throws d = false.
Proof.
  intros H. destruct d as [| b | n | t | items | fs]; try discriminate H.
  unfold reading_of_json in H. unfold row_throws, get_prop.
  shape_fields H. reflexivity.
Qed.

Lemma readings_shape_renders (d : json) (l : list HeartRateReading) :
  readings_of_json d = Some l -> readings_throws d = false.
Proof.
  destruct d as [| b | n | t | items | fs]; try discriminate.
  cbn [readings_of_json readings_throws]. revert l.
  induction items as [| d items IH]; intros l H; [reflexivity |].
  cbn [all_readings] in H. cbn [existsb].
  destruct (reading_of_json d) as [r |] eqn:Er; [| discriminate H].
  destruct (all_readings items) as [rs |] eqn:Ers; [| discriminate H].
  rewrite (reading_shape_renders d r Er), (IH rs eq_refl). reflexivity.
Qed.

Lemma declared_shape_renders (s : State) (st : HeartRateStats)
    (l : list HeartRateReading) :
  stats_of_json (stats s) = Some st ->
  readings_of_json (readings s) = Some l ->
  render_throws s = false.
Proof.
  intros Hs Hl. unfold render_throws.
  rewrite (stats_shape_renders _ _ Hs), (readings_shape_renders _ _ Hl).
  destruct (loading s); reflexivity.
Qed.

(** Where [render] gives a view, rendering does not throw. *)
Lemma render_defined_no_throw (s : State) (v : AppView) :
  render s = Some v -> render_throws s = false.
Proof.
  unfold render. intros H.
  destruct (loading s) eqn:L; [unfold render_throws; rewrite L; reflexivity |].
  destruct (stats_of_json (stats s)) as [st |] eqn:Hs; [| discriminate H].
  destruct (readings_of_json (readings s)) as [l |] eqn:Hl; [| discriminate H].
  exact (declared_shape_renders s st l Hs Hl).
Qed.

(** A cycle on a mounted component: the world it leaves and what becomes of
    the interval. *)
Lemma resolve_mounted (c : Component) (rs rr : settled Response) (ord : order) :
  timer c = true ->
  world (resolve rs rr ord (start_cycle c))
    = exec (fetchData rs rr ord) (world c) /\
  timer (resolve rs rr ord (start_cycle c))
    = negb (render_throws (state (exec (fetchData rs rr ord) (world c)))) /\
  inflight (resolve rs rr ord (start_cycle c)) = inflight c.
Proof.
  intros Ht.
  assert (E : exec (fetchData_resume rs rr ord) (world (start_cycle c))
              = exec (fetchData rs rr ord) (world c)).
  { unfold exec. rewrite fetchData_resume_run, fetchData_run.
    cbn [snd start_cycle world exec fetchData_begin bind setLoading setError
         modify state console stats readings loading error].
    destruct (cycle_error (classify rs) (classify rr) ord); reflexivity. }
  cbn [start_cycle world] in E.
  unfold resolve. cbn [inflight start_cycle timer world]. rewrite Ht.
  cbv zeta. cbn [world timer inflight]. rewrite E.
  repeat split.
Qed.

(** C6, as stated, fails: the first cycle after mount ends with status OK
    and body [null] for the statistics; no fault leaves [fetchData] and
    [loading] is cleared, but rendering [stats.current] then throws, the
    component is unmounted and the interval is cleared: no next cycle is
    scheduled. *)
Lemma bad_body_ends_the_schedule :
  ~ (forall (now : string) (rs rr : settled Response) (ord : order),
       let c' := resolve rs rr ord (mount now) in
       fst (fetchData_resume rs rr ord (world (mount now))) = Fulfilled tt /\
       loading (state (world c')) = false /\
       timer c' = true /\
       inflight (tick c') = S (inflight c')).
Proof.
  intro H.
  destruct (H "12:00:00" (ok_response JNull)
              (ok_response (readings_to_json sample_readings)) StatsFirst)
    as (_ & _ & Ht & _).
  discriminate Ht.
Qed.

(** C6 (amended): whatever the outcome of the two fetches, neither API
    function rejects, [fetchData] is fulfilled (no fault leaves it), it ends
    with [loading] false and nothing written to the console.  On a mounted
    component the interval stays registered, and the next tick starts a
    cycle, exactly when rendering the state left by the cycle does not
    throw; that is so whenever both slices then have their declared
    shape. *)
Theorem cycle_completes_without_fault
    (rs rr : settled Response) (ord : order) :
  (forall w, fst (fetchHeartRateStats rs w) = Fulfilled tt) /\
  (forall w, fst (fetchHeartRateReadings rr w) = Fulfilled tt) /\
  (forall w, fst (fetchData rs rr ord w) = Fulfilled tt /\
             loading (state (exec (fetchData rs rr ord) w)) = false /\
             console (exec (fetchData rs rr ord) w) = console w) /\
  (forall c,
     timer c = true ->
     let c' := resolve rs rr ord (start_cycle c) in
     world c' = exec (fetchData rs rr ord) (world c) /\
     loading (state (world c')) = false /\
     timer c' = negb (render_throws (state (world c'))) /\
     (timer c' = true -> inflight (tick c') = S (inflight c')) /\
     (forall s l,
        stats_of_json (stats (state (world c'))) = Some s ->
        readings_of_json (readings (state (world c'))) = Some l ->
        timer c' = true)).
Proof.
  split; [| split; [| split]].
  - intro w. rewrite fetchHeartRateStats_run. reflexivity.
  - intro w. rewrite fetchHeartRateReadings_run. reflexivity.
  - intro w. unfold exec. rewrite fetchData_run. auto.
  - intros c Ht c'. subst c'.
    destruct (resolve_mounted c rs rr ord Ht) as (Hw & Htm & _).
    rewrite Hw. split; [reflexivity |].
    split; [unfold exec; rewrite fetchData_run; reflexivity |].
    split; [rewrite Htm; reflexivity |].
    split.
    + intros Ht'. unfold tick. rewrite Ht'. reflexivity.
    + intros s l Hs Hl. rewrite Htm.
      rewrite (declared_shape_renders _ s l Hs Hl). reflexivity.
Qed.

Lemma cycle_completes_without_fault_witness :
  let c' := resolve server_error
              (ok_response (readings_to_json sample_readings)) ReadingsFirst
              (start_cycle (resolve server_error server_error StatsFirst mounted)) in
  loading (state (world c')) = false /\
  readings (state (world c')) = readings_to_json sample_readings /\
  timer c' = true /\
  inflight (tick c') = 1%nat.
Proof.
  intro c'.
  destruct (cycle_completes_without_fault server_error
              (ok_response (readings_to_json sample_readings)) ReadingsFirst)
    as (_ & _ & _ & H).
  destruct (H (resolve server_error server_error StatsFirst mounted) eq_refl)
    as (Hw & Hl & _ & Hk & Hshape).
  fold c' in Hw, Hl, Hk, Hshape.
  assert (Ht : timer c' = true)
    by (apply (Hshape (Build_HeartRateStats 0 0 0 0 "12:00:00") sample_readings);
        reflexivity).
  split; [exact Hl |].
  split; [reflexivity |].
  split; [exact Ht |].
  rewrite (Hk Ht). reflexivity.
Defined.

(** C7: a second cycle with the same successful responses leaves exactly
    the world the first one left: nothing is appended or accumulated. *)
Theorem successful_cycle_idempotent
    (w : World) (ds dr : json) (ord1 ord2 : order) :
  exec (fetchData (ok_response ds) (ok_response dr) ord2)
       (exec (fetchData (ok_response ds) (ok_response dr) ord1) w)
  = exec (fetchData (ok_response ds) (ok_response dr) ord1) w.
Proof. destruct ord1, ord2; reflexivity. Qed.

(** ** Teardown *)

(** Nothing happens to an unmounted component: the interval does not fire,
    the button is gone, and the setter calls of a cycle that was in flight
    are dropped. *)
Lemma step_unmounted (c : Component) (e : event) :
  timer c = false ->
  timer (step c e) = false /\ world (step c e) = world c.
Proof.
  intros Ht. destruct e as [| | rs rr ord |]; cbn [step].
  - unfold tick. rewrite Ht. auto.
  - unfold click_retry. rewrite Ht. auto.
  - unfold resolve. destruct (inflight c); [auto |]. rewrite Ht. auto.
  - auto.
Qed.

Lemma run_unmounted (es : list event) (c : Component) :
  timer c = false ->
  timer (run es c) = false /\ world (run es c) = world c.
Proof.
  revert c. induction es as [| e es IH]; intros c Ht; [auto |].
  cbn [run fold_left].
  destruct (step_unmounted c e Ht) as [Ht' Hw'].
  destruct (IH (step c e) Ht') as [Ht'' Hw''].
  unfold run in Ht'', Hw''. rewrite Ht'', Hw'', Hw'. auto.
Qed.

(** C4: unmounting clears the interval; a fetch in flight at that time may
    still settle, and [fetchData] then resumes without a fault, but its
    result is not applied: the statistics, the readings and the loading and
    error flags are as they were at the unmount, after that cycle and after
    anything else that happens later. *)
Theorem commit_after_unmount_is_dropped
    (c : Component) (rs rr : settled Response) (ord : order) :
  timer (unmount c) = false /\
  tick (unmount c) = unmount c /\
  world (resolve rs rr ord (unmount c)) = world c /\
  timer (resolve rs rr ord (unmount c)) = false /\
  fst (fetchData_resume rs rr ord (world c)) = Fulfilled tt /\
  (forall es, world (run es (unmount c)) = world c /\
              timer (run es (unmount c)) = false).
Proof.
  split; [reflexivity |].
  split; [reflexivity |].
  destruct (step_unmounted (unmount c) (Resolve rs rr ord) eq_refl)
    as [Ht Hw].
  split; [exact Hw |].
  split; [exact Ht |].
  split; [rewrite fetchData_resume_run; reflexivity |].
  intros es. destruct (run_unmounted es (unmount c) eq_refl) as [Ht' Hw'].
  split; [exact Hw' | exact Ht'].
Qed.

(** The cycle started at mount is in flight when the component is
    unmounted; its fetches then succeed, and nothing is written. *)
Lemma commit_after_unmount_example :
  inflight (unmount mounted) = 1%nat /\
  state (world (resolve (ok_response (stats_to_json sample_stats))
                        (ok_response (readings_to_json sample_readings))
                        StatsFirst (unmount mounted)))
    = initialState "12:00:00".
Proof. split; reflexivity. Qed.

(** ** Initial state *)

(** C10: before any cycle commits, the snapshot has the four values 0 and
    [lastUpdated] set to the construction time, the reading sequence is
    empty, [loading] is true and [error] is null, also once the first cycle
    has started at mount; the current value 0 classifies as 'low'. *)
Theorem initial_state_spec (now : string) :
  let zero := {| last5Minutes := 0; last15Minutes := 0; last30Minutes := 0;
                 current := 0; lastUpdated := now |} in
  stats (initialState now) = stats_to_json zero /\
  stats_of_json (stats (initialState now)) = Some zero /\
  readings (initialState now) = JArr [] /\
  readings_of_json (readings (initialState now)) = Some [] /\
  loading (initialState now) = true /\
  error (initialState now) = None /\
  state (world (mount now)) = initialState now /\
  getRiskLevel (current zero) = "low" /\
  hero_badge_label (renderHero zero) = "Bajo".
Proof. repeat split. Qed.

(* ================================================================= *)
(** * Further properties of the code *)

(** ** Thresholds *)

(** X1: the level never goes down when the pulse goes up: low, then normal,
    then high. *)
Theorem getRiskLevel_monotone (p q : Z) :
  p <= q -> level_rank (getRiskLevel p) <= level_rank (getRiskLevel q).
Proof.
  intros Hpq.
  destruct (getRiskLevel_cases p) as [[Hp Ep] | [[Hp Ep] | [Hp Ep]]];
    destruct (getRiskLevel_cases q) as [[Hq Eq] | [[Hq Eq] | [Hq Eq]]];
    rewrite Ep, Eq; cbn; lia.
Qed.

Lemma getRiskLevel_monotone_witness :
  59 <= 101 /\ level_rank (getRiskLevel 59) <= level_rank (getRiskLevel 101).
Proof.
  split; [lia | apply (getRiskLevel_monotone 59 101); lia].
Defined.

Lemma getStatCardColor_level (v : Z) :
  getStatCardColor v = card_of_level (getRiskLevel v).
Proof.
  unfold getStatCardColor, getRiskLevel.
  destruct (v >? 100); [| destruct (v <? 60)]; reflexivity.
Qed.

(** X2: the level, and with it the colour of a card, changes between a
    pulse and the next one at two places only: from 59 to 60 and from 100
    to 101. *)
Theorem getRiskLevel_changes_at_thresholds (p : Z) :
  (getRiskLevel (p + 1) <> getRiskLevel p <-> p = 59 \/ p = 100) /\
  (getStatCardColor (p + 1) <> getStatCardColor p <-> p = 59 \/ p = 100).
Proof.
  rewrite !getStatCardColor_level.
  destruct (getRiskLevel_cases p) as [[Hp Ep] | [[Hp Ep] | [Hp Ep]]];
    destruct (getRiskLevel_cases (p + 1)) as [[Hq Eq] | [[Hq Eq] | [Hq Eq]]];
    rewrite Ep, Eq; cbn;
    (split; (split; [intros H; try lia; exfalso; apply H; reflexivity
                    | intros H; try lia; discriminate])).
Qed.

(** ** Failures of one call *)

(** X3: a response whose status is not OK is a failure whatever its body
    is: [response.json()] is not awaited, the slice is not written and the
    error is the call's own text. *)
Theorem non_ok_response_ignores_body (w : World) (body : settled json) :
  let response := Fulfilled {| ok := false; response_json := body |} in
  exec (fetchHeartRateStats response) w =
    {| state := {| stats := stats (state w); readings := readings (state w);
                   loading := loading (state w);
                   error := Some "Error al obtener estadísticas" |};
       console := console w |} /\
  exec (fetchHeartRateReadings response) w =
    {| state := {| stats := stats (state w); readings := readings (state w);
                   loading := loading (state w);
                   error := Some "Error al obtener lecturas" |};
       console := console w |}.
Proof.
  intro response. subst response. unfold exec.
  rewrite fetchHeartRateStats_run, fetchHeartRateReadings_run.
  split; reflexivity.
Qed.

Lemma failure_message_provenance (own : string) (fetched : settled Response)
    (m : string) :
  failure_message own (classify fetched) = Some m ->
  m = own \/ m = "Error desconocido" \/ In m (thrown_messages fetched).
Proof.
  unfold thrown_messages.
  destruct (classify fetched) as [d | [m' | v] | | [m' | v]]; cbn;
    intros H; inversion H; subst; auto.
Qed.

(** ** The race between the two calls *)

(** X5: unless both calls fail, a cycle ends in the same world whichever
    call settles first; the only thing the two calls compete for is the
    error text. *)
Theorem settle_order_matters_only_when_both_fail
    (w : World) (rs rr : settled Response) :
  failed (classify rs) && failed (classify rr) = false ->
  fetchData rs rr StatsFirst w = fetchData rs rr ReadingsFirst w.
Proof.
  intros H. rewrite !fetchData_run. unfold cycle_error.
  destruct (classify rs), (classify rr); try discriminate H; reflexivity.
Qed.

Lemma settle_order_matters_only_when_both_fail_witness :
  fetchData server_error (ok_response (readings_to_json sample_readings))
            StatsFirst ready
  = fetchData server_error (ok_response (readings_to_json sample_readings))
              ReadingsFirst ready.
Proof.
  apply (settle_order_matters_only_when_both_fail ready server_error
           (ok_response (readings_to_json sample_readings))).
  reflexivity.
Defined.

(** When both calls fail the order shows: the text of the call that settled
    last is the one kept. *)
Lemma settle_order_shows_when_both_fail (w : World) :
  error (state (exec (fetchData server_error server_error StatsFirst) w))
    = Some "Error al obtener lecturas" /\
  error (state (exec (fetchData server_error server_error ReadingsFirst) w))
    = Some "Error al obtener estadísticas".
Proof. split; reflexivity. Qed.

(** ** Cycles one after the other *)

Lemma run_cycles_snoc (cs : list cycle) (c : cycle) (w : World) :
  run_cycles (cs ++ [c]) w = run_cycle (run_cycles cs w) c.
Proof. unfold run_cycles. rewrite fold_left_app. reflexivity. Qed.

Lemma last_success_snoc (l : list (settled Response)) (r : settled Response)
    (previous : json) :
  last_success (l ++ [r]) previous =
  match classify r with
  | Success d => d
  | _ => last_success l previous
  end.
Proof. unfold last_success. rewrite fold_left_app. reflexivity. Qed.

(** X6: after any number of complete cycles each data slice holds the body
    of the last successful response for it, or still the value from before
    when none succeeded: failed cycles in between leave no trace in the
    data. *)
Theorem run_cycles_last_success (cs : list cycle) (w : World) :
  stats (state (run_cycles cs w))
    = last_success (map (fun c => fst (fst c)) cs) (stats (state w)) /\
  readings (state (run_cycles cs w))
    = last_success (map (fun c => snd (fst c)) cs) (readings (state w)).
Proof.
  induction cs as [| [[rs rr] ord] cs IH] using rev_ind; [split; reflexivity |].
  destruct IH as [IHs IHr].
  rewrite run_cycles_snoc, !map_app. cbn [map fst snd run_cycle].
  rewrite !last_success_snoc. unfold exec. rewrite fetchData_run.
  cbn [snd state stats readings]. rewrite IHs, IHr.
  split; [destruct (classify rs) | destruct (classify rr)]; reflexivity.
Qed.

Lemma run_cycles_console (cs : list cycle) (w : World) :
  console (run_cycles cs w) = console w.
Proof.
  induction cs as [| [[rs rr] ord] cs IH] using rev_ind; [reflexivity |].
  rewrite run_cycles_snoc. cbn [run_cycle]. unfold exec.
  rewrite fetchData_run. exact IH.
Qed.

(** X7: after a sequence of complete cycles the flags depend on the last
    cycle alone: [loading] is false and [error] is that cycle's error (null
    when both its calls succeeded), whatever went wrong before; the console
    is as it was. *)
Theorem run_cycles_flags_of_last_cycle
    (cs : list cycle) (rs rr : settled Response) (ord : order) (w : World) :
  let w' := run_cycles (cs ++ [(rs, rr, ord)]) w in
  loading (state w') = false /\
  error (state w') = cycle_error (classify rs) (classify rr) ord /\
  console w' = console w.
Proof.
  intro w'. subst w'. rewrite run_cycles_snoc. cbn [run_cycle]. unfold exec.
  rewrite fetchData_run. cbn [snd state loading error console].
  repeat split. apply run_cycles_console.
Qed.

Lemma cycle_error_provenance (rs rr : settled Response) (ord : order)
    (m : string) :
  cycle_error (classify rs) (classify rr) ord = Some m ->
  In m (own_error_texts ++ thrown_messages rs ++ thrown_messages rr).
Proof.
  unfold cycle_error. intros H.
  assert (Hcases :
    failure_message "Error al obtener estadísticas" (classify rs) = Some m \/
    failure_message "Error al obtener lecturas" (classify rr) = Some m).
  { destruct ord;
      destruct (failure_message "Error al obtener estadísticas" (classify rs));
      destruct (failure_message "Error al obtener lecturas" (classify rr));
      auto; discriminate. }
  rewrite !in_app_iff. unfold own_error_texts.
  destruct Hcases as [Hs | Hr].
  - apply failure_message_provenance in Hs as [-> | [-> | Hs]]; cbn; auto.
  - apply failure_message_provenance in Hr as [-> | [-> | Hr]]; cbn; auto 6.
Qed.

(** X4: when cycles run one after the other, each to its end, the error text
    after a cycle is never a leftover of an earlier cycle or of the state
    before, and never made up: it is one of the three texts written in the
    code, or the message of an [Error] that rejected one of the two calls of
    that last cycle. *)
Theorem error_text_provenance
    (cs : list cycle) (w : World) (rs rr : settled Response) (ord : order)
    (m : string) :
  error (state (run_cycles (cs ++ [(rs, rr, ord)]) w)) = Some m ->
  In m (own_error_texts ++ thrown_messages rs ++ thrown_messages rr).
Proof.
  rewrite run_cycles_snoc. cbn [run_cycle]. unfold exec.
  rewrite fetchData_run. cbn [snd state error].
  apply cycle_error_provenance.
Qed.

Lemma error_text_provenance_witness :
  In "Failed to fetch"
     (own_error_texts
        ++ thrown_messages (Rejected (ThrownError "Failed to fetch"))
        ++ thrown_messages server_error).
Proof.
  apply (error_text_provenance
           [(Rejected (ThrownError "boom"), server_error, StatsFirst)] ready
           (Rejected (ThrownError "Failed to fetch")) server_error
           ReadingsFirst).
  reflexivity.
Defined.

(** ** Overlapping cycles *)

(** The end of a cycle on a mounted component. *)
Lemma resolve_applied (c : Component) (rs rr : settled Response) (ord : order)
    (n : nat) :
  timer c = true -> inflight c = S n ->
  world (resolve rs rr ord c) = exec (fetchData_resume rs rr ord) (world c) /\
  inflight (resolve rs rr ord c) = n /\
  timer (resolve rs rr ord c)
    = negb (render_throws (state (exec (fetchData_resume rs rr ord) (world c)))).
Proof.
  intros Ht Hn. unfold resolve. rewrite Hn, Ht. cbv zeta. repeat split.
Qed.

(** X8: on a mounted component, when a cycle starts while another is in
    flight, the older one fails (and what it leaves can be rendered) and the
    newer one then succeeds, the component ends with the data of the newer
    cycle together with the error of the older one: the error is cleared
    only when a cycle starts, not when one succeeds. *)
Theorem stale_error_survives_overlapping_success
    (c : Component) (rs rr : settled Response) (ordA : order)
    (ds dr : json) (ordB : order) :
  timer c = true ->
  failed (classify rs) || failed (classify rr) = true ->
  timer (resolve rs rr ordA (start_cycle (start_cycle c))) = true ->
  let c' := resolve (ok_response ds) (ok_response dr) ordB
              (resolve rs rr ordA (start_cycle (start_cycle c))) in
  stats (state (world c')) = ds /\
  readings (state (world c')) = dr /\
  loading (state (world c')) = false /\
  error (state (world c')) = cycle_error (classify rs) (classify rr) ordA /\
  error (state (world c')) <> None /\
  inflight c' = inflight c.
Proof.
  intros Ht Hf Hsurv c'. subst c'.
  destruct (resolve_applied (start_cycle (start_cycle c)) rs rr ordA
              (S (inflight c)) Ht eq_refl) as (Hw1 & Hi1 & _).
  destruct (resolve_applied (resolve rs rr ordA (start_cycle (start_cycle c)))
              (ok_response ds) (ok_response dr) ordB (inflight c) Hsurv Hi1)
    as (Hw2 & Hi2 & _).
  rewrite Hw2, Hi2, Hw1. unfold exec.
  rewrite !fetchData_resume_run.
  cbn [snd state stats readings loading error classify ok_response ok
       response_json cycle_error failure_message start_cycle world exec
       fetchData_begin bind setLoading setError modify console].
  assert (Hsome : exists m, cycle_error (classify rs) (classify rr) ordA = Some m).
  { unfold cycle_error.
    destruct (classify rs), (classify rr), ordA; try discriminate Hf;
      cbn; eexists; reflexivity. }
  destruct Hsome as [m Hm]. rewrite Hm.
  destruct ordB; cbn; repeat split; discriminate.
Qed.

Lemma stale_error_survives_overlapping_success_witness :
  let c' := resolve (ok_response (stats_to_json sample_stats))
                    (ok_response (readings_to_json sample_readings)) StatsFirst
              (resolve server_error server_error StatsFirst
                 (start_cycle (start_cycle mounted))) in
  stats (state (world c')) = stats_to_json sample_stats /\
  error (state (world c')) = Some "Error al obtener lecturas".
Proof.
  intro c'.
  destruct (stale_error_survives_overlapping_success mounted
              server_error server_error StatsFirst
              (stats_to_json sample_stats) (readings_to_json sample_readings)
              StatsFirst eq_refl eq_refl eq_refl) as (Hs & _ & _ & He & _).
  split; [exact Hs | exact He].
Defined.

(** X9: on a mounted component with two cycles in flight, the first one to
    finish already clears [loading], although a cycle is still in flight. *)
Theorem loading_cleared_with_cycle_in_flight
    (c : Component) (rs rr : settled Response) (ord : order) :
  timer c = true ->
  let c' := resolve rs rr ord (start_cycle (start_cycle c)) in
  loading (state (world c')) = false /\
  inflight c' = S (inflight c).
Proof.
  intros Ht c'. subst c'.
  destruct (resolve_applied (start_cycle (start_cycle c)) rs rr ord
              (S (inflight c)) Ht eq_refl) as (Hw & Hi & _).
  rewrite Hw, Hi. unfold exec. rewrite fetchData_resume_run.
  split; reflexivity.
Qed.

Lemma loading_cleared_with_cycle_in_flight_witness :
  let c' := resolve server_error server_error StatsFirst
              (start_cycle (start_cycle mounted)) in
  loading (state (world c')) = false /\ inflight c' = 2%nat.
Proof.
  apply (loading_cleared_with_cycle_in_flight mounted server_error
           server_error StatsFirst).
  reflexivity.
Defined.

(** ** Invariants of a mounted component *)

Lemma run_snoc (es : list event) (e : event) (c : Component) :
  run (es ++ [e]) c = step (run es c) e.
Proof. unfold run. rewrite fold_left_app. reflexivity. Qed.

(** An invariant of [step] that holds at the start holds after any history. *)
Lemma run_invariant (P : Component -> Prop) (c : Component) :
  P c -> (forall c' e, P c' -> P (step c' e)) ->
  forall es, P (run es c).
Proof.
  intros H0 Hstep es.
  induction es as [| e es IH] using rev_ind; [exact H0 |].
  rewrite run_snoc. apply Hstep, IH.
Qed.

Lemma start_cycle_world (c : Component) :
  world (start_cycle c) =
  {| state := {| stats := stats (state (world c));
                 readings := readings (state (world c));
                 loading := true; error := None |};
     console := console (world c) |}.
Proof. reflexivity. Qed.

(** What one event does to the world: nothing, the start of a cycle, or
    the end of one on a mounted component. *)
Lemma step_world (c : Component) (e : event) :
  world (step c e) = world c \/
  (world (step c e) = world (start_cycle c) /\
   inflight (step c e) = S (inflight c)) \/
  (exists rs rr ord n,
     e = Resolve rs rr ord /\ inflight c = S n /\ timer c = true /\
     inflight (step c e) = n /\
     world (step c e) = exec (fetchData_resume rs rr ord) (world c)).
Proof.
  destruct e as [| | rs rr ord |]; cbn [step].
  - unfold tick. destruct (timer c); auto.
  - unfold click_retry, retry.
    destruct (timer c); [| auto].
    destruct (error_banner (error (state (world c)))); auto.
  - destruct (inflight c) as [| n] eqn:E; [unfold resolve; rewrite E; auto |].
    destruct (timer c) eqn:Ht.
    + destruct (resolve_applied c rs rr ord n Ht E) as (Hw & Hi & _).
      right; right. exists rs, rr, ord, n. auto.
    + left. unfold resolve. rewrite E, Ht. reflexivity.
  - auto.
Qed.

(** X10: whatever happens after mounting (ticks, retries, overlapping
    cycles, failures), a component that is still mounted is never left
    loading with no cycle in flight. *)
Theorem idle_component_is_not_loading (now : string) (es : list event) :
  timer (run es (mount now)) = true ->
  inflight (run es (mount now)) = 0%nat ->
  loading (state (world (run es (mount now)))) = false.
Proof.
  revert es.
  apply (run_invariant
           (fun c => timer c = true -> inflight c = 0%nat ->
                     loading (state (world c)) = false)).
  - cbn. discriminate.
  - intros c e IH.
    destruct e as [| | rs rr ord |]; cbn [step].
    + unfold tick. destruct (timer c) eqn:Ht;
        [intros _; discriminate | intros H; congruence].
    + unfold click_retry, retry. destruct (timer c) eqn:Ht;
        [| intros H; congruence].
      destruct (error_banner (error (state (world c))));
        [intros _; discriminate | intros _; exact (IH eq_refl)].
    + destruct (inflight c) as [| k] eqn:E;
        [unfold resolve; rewrite E; intros H _; exact (IH H eq_refl) |].
      destruct (timer c) eqn:Ht.
      * destruct (resolve_applied c rs rr ord k Ht E) as (Hw & _ & _).
        intros _ _. rewrite Hw. unfold exec.
        rewrite fetchData_resume_run. reflexivity.
      * unfold resolve. rewrite E, Ht. discriminate.
    + discriminate.
Qed.

Lemma idle_component_is_not_loading_witness :
  let es := [Tick; Resolve server_error server_error StatsFirst; ClickRetry;
             Resolve server_error server_error ReadingsFirst;
             Resolve (ok_response (stats_to_json sample_stats))
                     (ok_response (readings_to_json sample_readings))
                     StatsFirst] in
  timer (run es mounted) = true /\
  inflight (run es mounted) = 0%nat /\
  loading (state (world (run es mounted))) = false.
Proof.
  intro es. split; [reflexivity |]. split; [reflexivity |].
  apply (idle_component_is_not_loading "12:00:00" es); reflexivity.
Defined.

Lemma resume_console (rs rr : settled Response) (ord : order) (w : World) :
  console (exec (fetchData_resume rs rr ord) w) = console w.
Proof. unfold exec. rewrite fetchData_resume_run. reflexivity. Qed.

(** X11: nothing is ever written to the console: whatever the responses
    and the order of events after mounting, the [catch] of [fetchData] with
    its [console.error] is never entered. *)
Theorem console_is_never_written (now : string) (es : list event) :
  console (world (run es (mount now))) = [].
Proof.
  revert es.
  apply (run_invariant (fun c => console (world c) = [])); [reflexivity |].
  intros c e IH.
  destruct (step_world c e)
    as [Hw | [[Hw _] | (rs & rr & ord & n & _ & _ & _ & _ & Hw)]]; rewrite Hw.
  - exact IH.
  - rewrite start_cycle_world. exact IH.
  - rewrite resume_console. exact IH.
Qed.

Lemma shaped_renders (c : Component) :
  shaped c -> render_throws (state (world c)) = false.
Proof.
  intros [[s Hs] [l Hl]]. exact (declared_shape_renders _ s l Hs Hl).
Qed.

(** An event whose bodies have the declared shapes keeps the slices in
    shape, and clears the interval only if it is the unmount. *)
Lemma step_well_shaped (c : Component) (e : event) :
  shaped c -> well_shaped e = true ->
  shaped (step c e) /\ timer (step c e) = timer c && negb (is_unmount e).
Proof.
  intros Hc He.
  destruct e as [| | rs rr ord |]; cbn [step is_unmount negb];
    rewrite ?andb_true_r, ?andb_false_r.
  - unfold tick. destruct (timer c) eqn:Ht; [| auto].
    split; [exact Hc | exact Ht].
  - unfold click_retry, retry. destruct (timer c) eqn:Ht; [| auto].
    destruct (error_banner (error (state (world c)))); [| auto].
    split; [exact Hc | exact Ht].
  - destruct (inflight c) as [| n] eqn:E;
      [unfold resolve; rewrite E; auto |].
    destruct (timer c) eqn:Ht;
      [| unfold resolve; rewrite E, Ht; split; [exact Hc | reflexivity]].
    destruct (resolve_applied c rs rr ord n Ht E) as (Hw & _ & Htm).
    assert (Hs : shaped (resolve rs rr ord c)).
    { unfold shaped. rewrite Hw. unfold exec. rewrite fetchData_resume_run.
      cbn [snd state stats readings].
      cbn [well_shaped] in He. apply andb_prop in He as [Hes Her].
      unfold shaped_or_failed in Hes, Her.
      destruct Hc as [Hcs Hcr]. split.
      - destruct (classify rs) as [d | | |]; try exact Hcs.
        destruct (stats_of_json d) as [s |]; [eauto | discriminate Hes].
      - destruct (classify rr) as [d | | |]; try exact Hcr.
        destruct (readings_of_json d) as [l |]; [eauto | discriminate Her]. }
    split; [exact Hs |].
    rewrite Htm, <- Hw, (shaped_renders _ Hs). reflexivity.
  - split; [exact Hc | reflexivity].
Qed.

Lemma forallb_snoc {A} (f : A -> bool) (l : list A) (a : A) :
  forallb f (l ++ [a]) = forallb f l && f a.
Proof. rewrite forallb_app. cbn. rewrite andb_true_r. reflexivity. Qed.

Lemma existsb_snoc {A} (f : A -> bool) (l : list A) (a : A) :
  existsb f (l ++ [a]) = existsb f l || f a.
Proof. rewrite existsb_app. cbn. rewrite orb_false_r. reflexivity. Qed.

Lemma well_shaped_history (now : string) (es : list event) :
  forallb well_shaped es = true ->
  shaped (run es (mount now)) /\
  timer (run es (mount now)) = negb (existsb is_unmount es).
Proof.
  induction es as [| e es IH] using rev_ind; intros H.
  - split; [| reflexivity].
    split; [exists (Build_HeartRateStats 0 0 0 0 now) | exists []];
      reflexivity.
  - rewrite forallb_snoc in H. apply andb_prop in H as [Hes He].
    destruct (IH Hes) as [Hs Ht].
    rewrite run_snoc, existsb_snoc, negb_orb, <- Ht.
    exact (step_well_shaped _ e Hs He).
Qed.

(** A mounted component has met no unmount and is in a state that renders. *)
Lemma mounted_history (now : string) (es : list event) :
  timer (run es (mount now)) = true ->
  existsb is_unmount es = false /\
  render_throws (state (world (run es (mount now)))) = false.
Proof.
  induction es as [| e es IH] using rev_ind; intros H; [split; reflexivity |].
  rewrite run_snoc in H |- *. rewrite existsb_snoc.
  destruct (timer (run es (mount now))) eqn:Ht;
    [| destruct (step_unmounted _ e Ht) as [Hf _]; congruence].
  destruct (IH eq_refl) as [Hu Hr]. rewrite Hu. cbn [orb].
  destruct e as [| | rs rr ord |]; cbn [step is_unmount] in H |- *.
  - split; [reflexivity |]. unfold tick. rewrite Ht. reflexivity.
  - split; [reflexivity |]. unfold click_retry, retry. rewrite Ht.
    destruct (error_banner _); [reflexivity | exact Hr].
  - split; [reflexivity |].
    destruct (inflight (run es (mount now))) as [| n] eqn:E;
      [unfold resolve; rewrite E; exact Hr |].
    destruct (resolve_applied _ rs rr ord n Ht E) as (Hw & _ & Htm).
    rewrite Htm in H. rewrite Hw. apply negb_true_iff. exact H.
  - discriminate H.
Qed.

(** X12: as long as every body received has its declared shape, the
    interval registered at mount stays registered through every cycle,
    failure and retry, up to the first unmount.  In any case a registered
    interval means that no unmount has happened and that the state on
    screen renders; and an interval that has been cleared, by an unmount or
    by a render that threw, is never registered again. *)
Theorem interval_registered_until_unmount (now : string) (es : list event) :
  (forallb well_shaped es = true ->
   timer (run es (mount now)) = negb (existsb is_unmount es)) /\
  (timer (run es (mount now)) = true ->
   existsb is_unmount es = false /\
   render_throws (state (world (run es (mount now)))) = false) /\
  (timer (run es (mount now)) = false ->
   forall es', timer (run (es ++ es') (mount now)) = false).
Proof.
  split; [| split].
  - intros H. exact (proj2 (well_shaped_history now es H)).
  - apply mounted_history.
  - intros H es'. unfold run. rewrite fold_left_app.
    exact (proj1 (run_unmounted es' _ H)).
Qed.

Lemma interval_registered_until_unmount_witness :
  let es := [Tick; Resolve server_error
                     (ok_response (readings_to_json sample_readings))
                     StatsFirst;
             ClickRetry;
             Resolve (ok_response (stats_to_json sample_stats))
                     server_error ReadingsFirst] in
  timer (run es mounted) = true /\
  render_throws (state (world (run es mounted))) = false /\
  timer (run (es ++ [Unmount] ++ [Tick; ClickRetry]) mounted) = false.
Proof.
  intro es.
  destruct (interval_registered_until_unmount "12:00:00" es)
    as (Hshape & Hmounted & _).
  destruct (interval_registered_until_unmount "12:00:00" (es ++ [Unmount]))
    as (_ & _ & Hgone).
  assert (Ht : timer (run es mounted) = true)
    by (unfold mounted; rewrite Hshape; reflexivity).
  split; [exact Ht |].
  split; [exact (proj2 (Hmounted Ht)) |].
  rewrite app_assoc. apply Hgone. reflexivity.
Defined.

(** X13: the component never shows data of its own making: after any
    history each data slice is either the initial value or the body of a
    successful response of that history for that slice. *)
Theorem data_comes_from_successful_responses (now : string) (es : list event) :
  let s := state (world (run es (mount now))) in
  (stats s = stats (initialState now) \/
   exists e, In e es /\ stats_success e = Some (stats s)) /\
  (readings s = readings (initialState now) \/
   exists e, In e es /\ readings_success e = Some (readings s)).
Proof.
  induction es as [| e es IH] using rev_ind; [split; left; reflexivity |].
  cbn zeta in IH |- *. rewrite run_snoc.
  assert (Hmono : forall (f : event -> option json) d,
            (exists e', In e' es /\ f e' = Some d) ->
            exists e', In e' (es ++ [e]) /\ f e' = Some d).
  { intros f d (e' & Hin & He'). exists e'. split; [| exact He'].
    apply in_or_app. left. exact Hin. }
  destruct IH as [IHs IHr].
  destruct (step_world (run es (mount now)) e)
    as [Hw | [[Hw _] | (rs & rr & ord & n & He & _ & _ & _ & Hw)]]; rewrite Hw.
  - split; [destruct IHs as [H | H] | destruct IHr as [H | H]]; auto.
  - rewrite start_cycle_world. cbn [state stats readings].
    split; [destruct IHs as [H | H] | destruct IHr as [H | H]]; auto.
  - unfold exec. rewrite fetchData_resume_run. cbn [snd state stats readings].
    split.
    + destruct (classify rs) as [d | | |] eqn:C; cbv iota;
        try (destruct IHs as [H | H]; auto; fail).
      right. exists e. split; [apply in_or_app; right; left; reflexivity |].
      rewrite He. cbn. rewrite C. reflexivity.
    + destruct (classify rr) as [d | | |] eqn:C; cbv iota;
        try (destruct IHr as [H | H]; auto; fail).
      right. exists e. split; [apply in_or_app; right; left; reflexivity |].
      rewrite He. cbn. rewrite C. reflexivity.
Qed.

(** ** What the user sees *)

(** X14: when both calls of a cycle fail, what was on screen stays on
    screen: the same snapshot and the same rows, no spinner, and the error
    banner with the text of the call that failed last (no banner for an
    empty text). *)
Theorem failed_cycle_keeps_data_on_screen
    (w : World) (s : HeartRateStats) (l : list HeartRateReading)
    (rs rr : settled Response) (ord : order) :
  stats_of_json (stats (state w)) = Some s ->
  readings_of_json (readings (state w)) = Some l ->
  failed (classify rs) = true ->
  failed (classify rr) = true ->
  render (state (exec (fetchData rs rr ord) w)) =
  Some {| loading_shown := false;
          error_shown :=
            error_banner (cycle_error (classify rs) (classify rr) ord);
          content_shown := Some (content_of s l) |}.
Proof.
  intros Hs Hl Fs Fr. unfold exec. rewrite fetchData_run.
  unfold render. cbn [snd state stats readings loading error].
  destruct (classify rs); [discriminate Fs | ..];
    (destruct (classify rr); [discriminate Fr | ..]);
    rewrite Hs, Hl; reflexivity.
Qed.

Lemma failed_cycle_keeps_data_on_screen_witness :
  render (state (exec (fetchData server_error server_error StatsFirst) ready)) =
  Some {| loading_shown := false;
          error_shown := Some "Error al obtener lecturas";
          content_shown := Some (content_of sample_stats sample_readings) |}.
Proof.
  apply (failed_cycle_keeps_data_on_screen ready sample_stats sample_readings
           server_error server_error StatsFirst); reflexivity.
Defined.


(** X16: when both calls of the very first cycle fail, the dashboard shows
    the initial zeros as if they were measurements: 0 BPM labelled "Bajo" on
    blue, three blue cards with 0, the construction time as last update and
    an empty table, next to the error banner. *)
Theorem first_cycle_failure_shows_zeros
    (now : string) (rs rr : settled Response) (ord : order) :
  failed (classify rs) = true ->
  failed (classify rr) = true ->
  render (state (world (resolve rs rr ord (mount now)))) =
  Some {| loading_shown := false;
          error_shown :=
            error_banner (cycle_error (classify rs) (classify rr) ord);
          content_shown :=
            Some {| hero := {| hero_value := 0;
                               hero_badge_class := "bg-blue-100 text-blue-800";
                               hero_badge_label := "Bajo";
                               hero_last_updated := now |};
                    card5 := {| card_class := "border-blue-200 bg-blue-50";
                                card_value := 0 |};
                    card15 := {| card_class := "border-blue-200 bg-blue-50";
                                 card_value := 0 |};
                    card30 := {| card_class := "border-blue-200 bg-blue-50";
                                 card_value := 0 |};
                    rows := [] |} |}.
Proof.
  intros Fs Fr. cbn [resolve mount start_cycle inflight world]. unfold exec.
  rewrite fetchData_resume_run. unfold render.
  cbn [snd state stats readings loading error fetchData_begin].
  destruct (classify rs); [discriminate Fs | ..];
    (destruct (classify rr); [discriminate Fr | ..]);
    destruct ord; reflexivity.
Qed.

Lemma first_cycle_failure_shows_zeros_witness :
  option_map (fun v => option_map (fun c => hero_badge_label (hero c))
                                  (content_shown v))
    (render (state (world (resolve server_error
                             (Rejected (ThrownError "Failed to fetch"))
                             StatsFirst mounted))))
  = Some (Some "Bajo").
Proof.
  unfold mounted.
  rewrite (first_cycle_failure_shows_zeros "12:00:00" server_error
             (Rejected (ThrownError "Failed to fetch")) StatsFirst
             eq_refl eq_refl).
  reflexivity.
Defined.

(** X17: the table shows the placeholder exactly when there are no
    readings; otherwise it has one row per reading, in the order of the
    readings, each keyed by the reading's id, so that distinct ids give
    distinct keys. *)
Theorem renderTableBody_rows (readings : list HeartRateReading) :
  (renderTableBody readings = NoReadings <-> readings = []) /\
  (forall trs,
     renderTableBody readings = Rows trs ->
     readings <> [] /\
     length trs = length readings /\
     map row_key trs = map id readings /\
     (NoDup (map id readings) -> NoDup (map row_key trs)) /\
     forall i, nth_error trs i = option_map renderRow (nth_error readings i)).
Proof.
  unfold renderTableBody.
  destruct readings as [| r l].
  - split; [split; reflexivity | intros trs H; discriminate H].
  - replace (Z.of_nat (length (r :: l)) =? 0) with false
      by (symmetry; apply Z.eqb_neq; cbn [length]; lia).
    split; [split; discriminate |].
    intros trs H. injection H as <-.
    change (renderRow r :: map renderRow l) with (map renderRow (r :: l)).
    assert (Hk : map row_key (map renderRow (r :: l)) = map id (r :: l))
      by (rewrite map_map; reflexivity).
    split; [discriminate |].
    split; [apply length_map |].
    split; [exact Hk |].
    split; [rewrite Hk; auto |].
    intro i. apply nth_error_map.
Qed.

Lemma renderTableBody_rows_witness :
  exists trs,
    renderTableBody sample_readings = Rows trs /\
    map row_key trs = [1; 2; 3] /\
    NoDup (map row_key trs).
Proof.
  exists (map renderRow sample_readings).
  destruct (proj2 (renderTableBody_rows sample_readings)
              (map renderRow sample_readings) eq_refl)
    as (_ & _ & Hk & Hn & _).
  split; [reflexivity |]. split; [exact Hk |].
  apply Hn. cbn.
  repeat constructor; cbn; intuition discriminate.
Defined.

(** ** Request URLs *)

Lemma append_cancel_l (s a b : string) :
  (s ++ a = s ++ b)%string -> a = b.
Proof.
  induction s as [| ch s IH]; cbn; intros H; [exact H |].
  injection H as H. exact (IH H).
Qed.

Lemma prefix_append (s t : string) : prefix s (s ++ t) = true.
Proof.
  induction s as [| ch s IH]; cbn; [destruct t; reflexivity |].
  destruct (Ascii.ascii_dec ch ch) as [_ | N]; [exact IH | contradiction].
Qed.

(** X18: the base address is never empty (a variable that is unset or
    empty gives the default, any other value is taken as it is), both
    request URLs start with it, and the two calls never ask for the same
    URL. *)
Theorem request_urls (env : option string) :
  API_BASE_URL env <> EmptyString /\
  (forall ch rest, API_BASE_URL (Some (String ch rest)) = String ch rest) /\
  API_BASE_URL (Some EmptyString) = API_BASE_URL None /\
  prefix (API_BASE_URL env) (stats_url env) = true /\
  prefix (API_BASE_URL env) (readings_url env) = true /\
  stats_url env <> readings_url env.
Proof.
  split; [| split; [| split; [| split; [| split]]]].
  - unfold API_BASE_URL. destruct env as [url |]; [| discriminate].
    destruct (String.eqb_spec url EmptyString) as [-> | N];
      [discriminate | exact N].
  - reflexivity.
  - reflexivity.
  - apply prefix_append.
  - apply prefix_append.
  - unfold stats_url, readings_url. intros H.
    apply append_cancel_l in H. discriminate H.
Qed.
